(** * Line-to-record parsing of the two ingestion pipelines

    Shallow embedding of [DataIngestion.parse_method] of
    [data_ingestion.py] (funding rounds) and of [dataflow.py] (baby names),
    and of the stage graph built by [run] in both files.

    Modelling conventions.
    - Both files are Python 2 programs ([from __future__ import
      absolute_import], a [u] prefix on a pattern).  [ReadFromText] hands
      [parse_method] a line of text (Python 2 [unicode]), embedded as a
      [string] whose characters stand for code points, those below 256
      here.  A byte string is a [string] too, its characters the bytes.
    - A row (a Python [dict] with string keys and string values) is a
      [gmap string string].
    - Python exceptions are explicit: a computation that may raise returns a
      [result]. *)

From Stdlib Require Import ZArith Ascii String List.
From stdpp Require Import gmap strings list fin_maps.

Local Open Scope string_scope.

(** ** Exceptions *)

Inductive exn : Type :=
  | KeyError (key : string)
  | UnicodeEncodeError (text : string).

Inductive result (A : Type) : Type :=
  | Ok (a : A)
  | Raise (e : exn).

Arguments Ok {A} a.
Arguments Raise {A} e.

#[export] Instance result_ret : MRet result := fun A a => Ok a.

#[export] Instance result_bind : MBind result := fun A B k m =>
  match m with
  | Ok a => k a
  | Raise e => Raise e
  end.

(** ** [hashlib.sha256(...).hexdigest()]

    SHA-256 as in FIPS 180-4, on 32-bit words held in [Z] with the
    wrap-around written out. *)

Module SHA256.

Local Open Scope Z_scope.

Definition wrap (x : Z) : Z := x mod 2 ^ 32.

Definition add32 (x y : Z) : Z := wrap (x + y).

Definition rotr (n x : Z) : Z :=
  Z.lor (Z.shiftr x n) (wrap (Z.shiftl x (32 - n))).

Definition not32 (x : Z) : Z := Z.lxor x (2 ^ 32 - 1).

Definition ch (x y z : Z) : Z :=
  Z.lxor (Z.land x y) (Z.land (not32 x) z).

Definition maj (x y z : Z) : Z :=
  Z.lxor (Z.lxor (Z.land x y) (Z.land x z)) (Z.land y z).

Definition bsig0 (x : Z) : Z :=
  Z.lxor (Z.lxor (rotr 2 x) (rotr 13 x)) (rotr 22 x).

Definition bsig1 (x : Z) : Z :=
  Z.lxor (Z.lxor (rotr 6 x) (rotr 11 x)) (rotr 25 x).

Definition ssig0 (x : Z) : Z :=
  Z.lxor (Z.lxor (rotr 7 x) (rotr 18 x)) (Z.shiftr x 3).

Definition ssig1 (x : Z) : Z :=
  Z.lxor (Z.lxor (rotr 17 x) (rotr 19 x)) (Z.shiftr x 10).

(** The sixty-four round constants. *)
Definition round_constants : list Z :=
  [ 1116352408; 1899447441; 3049323471; 3921009573;
    961987163; 1508970993; 2453635748; 2870763221;
    3624381080; 310598401; 607225278; 1426881987;
    1925078388; 2162078206; 2614888103; 3248222580;
    3835390401; 4022224774; 264347078; 604807628;
    770255983; 1249150122; 1555081692; 1996064986;
    2554220882; 2821834349; 2952996808; 3210313671;
    3336571891; 3584528711; 113926993; 338241895;
    666307205; 773529912; 1294757372; 1396182291;
    1695183700; 1986661051; 2177026350; 2456956037;
    2730485921; 2820302411; 3259730800; 3345764771;
    3516065817; 3600352804; 4094571909; 275423344;
    430227734; 506948616; 659060556; 883997877;
    958139571; 1322822218; 1537002063; 1747873779;
    1955562222; 2024104815; 2227730452; 2361852424;
    2428436474; 2756734187; 3204031479; 3329325298 ].

(** The eight working variables a..h, also the running hash value. *)
Record state : Type := State {
  sa : Z; sb : Z; sc : Z; sd : Z; se : Z; sf : Z; sg : Z; sh : Z
}.

Definition initial_state : state :=
  State 1779033703 3144134277 1013904242 2773480762
        1359893119 2600822924 528734635 1541459225.

(** Padding: the byte 0x80, zero bytes up to 56 modulo 64, and the bit
    length as a big-endian 64-bit number. *)
Definition be_bytes (count : nat) (x : Z) : list Z :=
  map (fun i => Z.land (Z.shiftr x (8 * Z.of_nat i)) 255)
      (rev (seq 0 count)).

Definition pad (msg : list Z) : list Z :=
  let len := Z.of_nat (length msg) in
  msg ++ [128]
      ++ repeat 0 (Z.to_nat ((55 - len) mod 64))
      ++ be_bytes 8 (8 * len).

Definition be_word (b3 b2 b1 b0 : Z) : Z :=
  Z.lor (Z.lor (Z.shiftl b3 24) (Z.shiftl b2 16)) (Z.lor (Z.shiftl b1 8) b0).

Fixpoint words_of_bytes (bs : list Z) : list Z :=
  match bs with
  | b3 :: b2 :: b1 :: b0 :: rest => be_word b3 b2 b1 b0 :: words_of_bytes rest
  | _ => []
  end.

(** The message schedule, held newest word first while it is extended. *)
Fixpoint extend (count : nat) (rev_w : list Z) : list Z :=
  match count with
  | O => rev_w
  | S count' =>
      let w2 := nth 1 rev_w 0 in
      let w7 := nth 6 rev_w 0 in
      let w15 := nth 14 rev_w 0 in
      let w16 := nth 15 rev_w 0 in
      extend count'
        (add32 (add32 (ssig1 w2) w7) (add32 (ssig0 w15) w16) :: rev_w)
  end.

Definition schedule (block : list Z) : list Z :=
  rev (extend 48 (rev block)).

Definition round (s : state) (kw : Z * Z) : state :=
  let t1 := add32 (add32 (add32 (sh s) (bsig1 (se s)))
                         (add32 (ch (se s) (sf s) (sg s)) (fst kw)))
                  (snd kw) in
  let t2 := add32 (bsig0 (sa s)) (maj (sa s) (sb s) (sc s)) in
  State (add32 t1 t2) (sa s) (sb s) (sc s)
        (add32 (sd s) t1) (se s) (sf s) (sg s).

Definition compress (h : state) (block : list Z) : state :=
  let s := fold_left round (combine round_constants (schedule block)) h in
  State (add32 (sa h) (sa s)) (add32 (sb h) (sb s))
        (add32 (sc h) (sc s)) (add32 (sd h) (sd s))
        (add32 (se h) (se s)) (add32 (sf h) (sf s))
        (add32 (sg h) (sg s)) (add32 (sh h) (sh s)).

Fixpoint blocks (fuel : nat) (ws : list Z) : list (list Z) :=
  match fuel, ws with
  | S fuel', _ :: _ => firstn 16 ws :: blocks fuel' (skipn 16 ws)
  | _, _ => []
  end.

Definition digest_words (msg : list Z) : list Z :=
  let ws := words_of_bytes (pad msg) in
  let s := fold_left compress (blocks (length ws) ws) initial_state in
  [sa s; sb s; sc s; sd s; se s; sf s; sg s; sh s].

Definition digest (msg : list Z) : list Z :=
  flat_map (be_bytes 4) (digest_words msg).

End SHA256.

(** ** Byte strings *)

Definition bytes_of_string (s : string) : list Z :=
  map (fun c => Z.of_N (N_of_ascii c)) (list_ascii_of_string s).

Definition hex_digits : list ascii :=
  list_ascii_of_string "0123456789abcdef".

Definition hex_digit (n : Z) : ascii :=
  nth (Z.to_nat n) hex_digits "0"%char.

Definition hex_of_byte (b : Z) : list ascii :=
  [hex_digit (Z.shiftr b 4); hex_digit (Z.land b 15)].

(** [hashlib.sha256(s).hexdigest()] on a byte string [s]. *)
Definition sha256_hexdigest (s : string) : string :=
  string_of_list_ascii (flat_map hex_of_byte (SHA256.digest (bytes_of_string s))).

(** ** Text

    Where Python 2 needs the bytes of a text it encodes the text with the
    ASCII codec: a text whose code points are all below 128 gives the bytes
    with the same codes, any other text raises [UnicodeEncodeError]. *)
Definition is_ascii_char (c : ascii) : bool := (N_of_ascii c <? 128)%N.

Fixpoint is_ascii (text : string) : bool :=
  match text with
  | EmptyString => true
  | String c rest => is_ascii_char c && is_ascii rest
  end.

Definition ascii_encode (text : string) : result string :=
  if is_ascii text then Ok text else Raise (UnicodeEncodeError text).

(** [hashlib.sha256(text).hexdigest()] on a text. *)
Definition hashlib_sha256_hexdigest (text : string) : result string :=
  bytes ← ascii_encode text;
  mret (sha256_hexdigest bytes).

(** ** The [re] calls and the [dict] operations of [parse_method] *)

Definition quote_char : ascii := ascii_of_nat 34.
Definition cr_char : ascii := ascii_of_nat 13.
Definition lf_char : ascii := ascii_of_nat 10.
Definition comma_char : ascii := ","%char.

(** [re.sub] with the one-character pattern of a double quote and the empty
    replacement: every double quote is deleted. *)
Fixpoint re_sub_quote (s : string) : string :=
  match s with
  | EmptyString => EmptyString
  | String c rest =>
      if Ascii.eqb c quote_char then re_sub_quote rest
      else String c (re_sub_quote rest)
  end.

(** [re.sub('\r\n', '', s)]: one scan from the left; each occurrence of
    the two-character sequence CR LF is deleted and the scan resumes after
    it. *)
Fixpoint re_sub_crlf (s : string) : string :=
  match s with
  | EmptyString => EmptyString
  | String c rest =>
      match rest with
      | String c' rest' =>
          if Ascii.eqb c cr_char && Ascii.eqb c' lf_char
          then re_sub_crlf rest'
          else String c (re_sub_crlf rest)
      | EmptyString => String c EmptyString
      end
  end.

(** [re.split] on the comma: the pieces between the commas, one more than there
    are commas. *)
Fixpoint re_split_comma (s : string) : list string :=
  match s with
  | EmptyString => [EmptyString]
  | String c rest =>
      if Ascii.eqb c comma_char then EmptyString :: re_split_comma rest
      else match re_split_comma rest with
           | piece :: pieces => String c piece :: pieces
           | [] => [String c EmptyString]
           end
  end.

Abbreviation row := (gmap string string).

(** [dict(pairs)]: the pairs are inserted from left to right, a later pair
    replacing an earlier one with the same key. *)
Definition dict (pairs : list (string * string)) : row :=
  fold_left (fun (d : row) (p : string * string) => <[p.1 := p.2]> d) pairs ∅.

(** [key in d] *)
Definition contains (key : string) (d : row) : bool :=
  bool_decide (is_Some (d !! key)).

(** [d[key]], which raises [KeyError] on a missing key. *)
Definition getitem (d : row) (key : string) : result string :=
  match d !! key with
  | Some v => Ok v
  | None => Raise (KeyError key)
  end.

(** The values of a line: quotes stripped, then CR LF stripped, then split. *)
Definition split_values (string_input : string) : list string :=
  re_split_comma (re_sub_crlf (re_sub_quote string_input)).

(** The column names of a sink schema string [name:TYPE,name:TYPE,...]. *)
Fixpoint before_colon (s : string) : string :=
  match s with
  | EmptyString => EmptyString
  | String c rest =>
      if Ascii.eqb c ":"%char then EmptyString
      else String c (before_colon rest)
  end.

Definition schema_columns (schema : string) : list string :=
  map before_colon (re_split_comma schema).

(** ** The Beam stages used by [run] *)

(** [ReadFromText(input, skip_header_lines=n)]: the lines of the source
    without its first [n] lines. *)
Definition read_from_text (source : list string) (skip_header_lines : nat)
  : list string :=
  drop skip_header_lines source.

(** [beam.Map(f)]: [f] is applied to every element; an exception raised by
    [f] fails the stage. *)
Fixpoint beam_map {A B : Type} (f : A -> result B) (xs : list A)
  : result (list B) :=
  match xs with
  | [] => mret []
  | x :: rest => y ← f x; ys ← beam_map f rest; mret (y :: ys)
  end.

(** Modelled from the spec: the sink and [WriteToBigQuery] belong to the
    Beam library and the warehouse, not to this repository.  Section 4.3 of
    the specification and the comments at the two disposition arguments in
    [run] describe them: with [CREATE_IF_NEEDED] a table that does not exist
    is created with the columns of the schema and an existing one is reused
    as it is; with [WRITE_TRUNCATE] all rows of the table are deleted before
    the rows of this run are written.  Only a write that succeeds is
    modelled: the sink's rejection of a record is not. *)
Record table : Type := Table {
  table_columns : list string;
  table_rows : list (gmap string string)
}.

Inductive create_disposition : Type := CREATE_IF_NEEDED.

Inductive write_disposition : Type := WRITE_TRUNCATE.

Definition create_table (cd : create_disposition) (name schema : string)
    (w : gmap string table) : table :=
  match cd with
  | CREATE_IF_NEEDED =>
      match w !! name with
      | Some t => t
      | None => Table (schema_columns schema) []
      end
  end.

Definition clear_table (wd : write_disposition) (t : table) : table :=
  match wd with
  | WRITE_TRUNCATE => Table (table_columns t) []
  end.

Definition write_to_bigquery (name schema : string)
    (cd : create_disposition) (wd : write_disposition)
    (records : list (gmap string string)) (w : gmap string table)
  : gmap string table :=
  let t := clear_table wd (create_table cd name schema w) in
  <[name := Table (table_columns t) (table_rows t ++ records)]> w.

(** The stage graph of [run], the same in both files: read the source
    skipping one header line, map [parse_method] over the lines, write the
    rows to the [output] table.  The parse stage runs on parallel workers,
    so the rows reach the sink in some order [arrival], each exactly once. *)
Definition pipeline (parse : string -> result (gmap string string))
    (schema output : string) (source : list string)
    (before after : gmap string table) : Prop :=
  exists records arrival : list (gmap string string),
    beam_map parse (read_from_text source 1) = Ok records
    /\ arrival ≡ₚ records
    /\ after = write_to_bigquery output schema
                 CREATE_IF_NEEDED WRITE_TRUNCATE arrival before.

(** ** [data_ingestion.py] *)

Module data_ingestion.

Definition columns : list string :=
  ["permlink"; "numEmps"; "category"; "city"; "state";
   "fundedDate"; "raisedAmt"; "raisedCurrency"; "round"].

Definition parse_method (string_input : string) : result row :=
  let values := split_values string_input in
  let row0 := dict (zip columns values) in
  if contains "fundedDate" row0 then
    funded ← getitem row0 "fundedDate";
    digest ← hashlib_sha256_hexdigest funded;
    mret (<["hash_code" := digest]> row0)
  else mret row0.

(** The [schema] argument of [WriteToBigQuery] in [run]. *)
Definition schema : string :=
  "hash_code:STRING,permalink:STRING,numEmps:STRING," ++
  "category:STRING,city:STRING,state:STRING,fundedDate:STRING," ++
  "raisedAmt:STRING,raisedCurrency:STRING,round:STRING".

Definition run : string -> list string ->
    gmap string table -> gmap string table -> Prop :=
  pipeline parse_method schema.

End data_ingestion.

(** ** [dataflow.py] *)

Module dataflow.

Definition columns : list string :=
  ["state"; "gender"; "year"; "name"; "number"; "created_date"].

Definition parse_method (string_input : string) : result row :=
  let values := split_values string_input in
  let row0 := dict (zip columns values) in
  mret row0.

Definition schema : string :=
  "state:STRING,gender:STRING,year:STRING,name:STRING," ++
  "number:STRING,created_date:STRING".

Definition run : string -> list string ->
    gmap string table -> gmap string table -> Prop :=
  pipeline parse_method schema.

End dataflow.

(** ** The two variants side by side *)

Inductive variant : Type :=
  | FundingRound
  | BabyName.

Definition parse_method_of (v : variant) : string -> result row :=
  match v with
  | FundingRound => data_ingestion.parse_method
  | BabyName => dataflow.parse_method
  end.

Definition columns_of (v : variant) : list string :=
  match v with
  | FundingRound => data_ingestion.columns
  | BabyName => dataflow.columns
  end.

Definition run_of (v : variant)
  : string -> list string -> gmap string table -> gmap string table -> Prop :=
  match v with
  | FundingRound => data_ingestion.run
  | BabyName => dataflow.run
  end.

(** ** Vocabulary of the statements *)

(** [occurs c s]: the character [c] appears in [s]. *)
Fixpoint occurs (c : ascii) (s : string) : bool :=
  match s with
  | EmptyString => false
  | String c' rest => Ascii.eqb c c' || occurs c rest
  end.

(** [has_crlf s]: the sequence CR LF appears in [s]. *)
Fixpoint has_crlf (s : string) : bool :=
  match s with
  | EmptyString => false
  | String c rest =>
      match rest with
      | String c' _ =>
          (Ascii.eqb c cr_char && Ascii.eqb c' lf_char) || has_crlf rest
      | EmptyString => false
      end
  end.

(** [crlf_paired s]: CR and LF appear in [s] only as adjacent CR LF pairs. *)
Fixpoint crlf_paired (s : string) : bool :=
  match s with
  | EmptyString => true
  | String c rest =>
      if Ascii.eqb c cr_char then
        match rest with
        | String c' rest' => Ascii.eqb c' lf_char && crlf_paired rest'
        | EmptyString => false
        end
      else negb (Ascii.eqb c lf_char) && crlf_paired rest
  end.

(** The example lines of the two docstrings. *)
Definition lifelock_line : string :=
  "lifelock,LifeLock,,web,Tempe,AZ,1-May-07,6850000,USD,b".

Definition dorothy_line : string :=
  "KS,F,1923,Dorothy,654,11/28/2016".

(** A line whose second value ends in CR CR LF LF. *)
Definition stray_cr_line : string :=
  "KS,F" ++ String cr_char (String cr_char (String lf_char (String lf_char ""))).

(** A line with a quoted value and a CR LF line end. *)
Definition quoted_line : string :=
  String quote_char "KS" ++ String quote_char ",F"
    ++ String cr_char (String lf_char "").

(** A line with a comma between quotes. *)
Definition quoted_comma_line : string :=
  String quote_char "a,b" ++ String quote_char ",c".

(** The digest of the two-character string AZ, as [hashlib] prints it. *)
Definition digest_AZ : string :=
  "38318c00d873bcdbf1dd521e4c68bcf16945d7e63a97f0f9d92b1c9fcbb2338e".

(** The row of [lifelock_line]: the nine names paired with the first nine
    values, and the digest of the value paired with [fundedDate]. *)
Definition lifelock_record : gmap string string :=
  dict [("permlink", "lifelock"); ("numEmps", "LifeLock"); ("category", "");
        ("city", "web"); ("state", "Tempe"); ("fundedDate", "AZ");
        ("raisedAmt", "1-May-07"); ("raisedCurrency", "6850000");
        ("round", "USD"); ("hash_code", digest_AZ)].

(** The row of [dorothy_line]. *)
Definition dorothy_record : gmap string string :=
  dict [("state", "KS"); ("gender", "F"); ("year", "1923");
        ("name", "Dorothy"); ("number", "654");
        ("created_date", "11/28/2016")].

(** The value that [stray_cr_line] leaves under [gender], and its row. *)
Definition stray_value : string :=
  "F" ++ String cr_char (String lf_char "").

Definition stray_record : gmap string string :=
  dict [("state", "KS"); ("gender", stray_value)].

(** The row of [quoted_line]. *)
Definition quoted_record : gmap string string :=
  dict [("state", "KS"); ("gender", "F")].

(** A second funding-round line whose sixth value is AZ, and its row. *)
Definition arizona_line : string := "intel,Intel,900,hardware,Chandler,AZ".

Definition arizona_record : gmap string string :=
  dict [("permlink", "intel"); ("numEmps", "Intel"); ("category", "900");
        ("city", "hardware"); ("state", "Chandler"); ("fundedDate", "AZ");
        ("hash_code", digest_AZ)].

(** A source of one header line and one record line, and a sink that
    already holds a row of an earlier run. *)
Definition names_source : list string :=
  ["state,gender,year,name,number,created_date"; dorothy_line].

Definition stale_record : gmap string string :=
  dict [("state", "TX"); ("gender", "M")].

Definition stale_sink : gmap string table :=
  {["lake.usa_names" := Table (schema_columns dataflow.schema) [stale_record]]}.

Definition sink_after (before : gmap string table) : gmap string table :=
  write_to_bigquery "lake.usa_names" dataflow.schema
    CREATE_IF_NEEDED WRITE_TRUNCATE [dorothy_record] before.

(** [count_char c s]: how many times the character [c] appears in [s]. *)
Fixpoint count_char (c : ascii) (s : string) : nat :=
  match s with
  | EmptyString => 0
  | String c' rest => (if Ascii.eqb c c' then 1 else 0) + count_char c rest
  end.

(** The pieces written one after the other with a comma between two
    neighbours, the inverse of splitting on the comma. *)
Fixpoint join_comma (pieces : list string) : string :=
  match pieces with
  | [] => EmptyString
  | piece :: rest =>
      match rest with
      | [] => piece
      | _ :: _ => piece ++ String comma_char (join_comma rest)
      end
  end.

(** The two-character line terminator CR LF. *)
Definition crlf : string := String cr_char (String lf_char EmptyString).

(** [derives v n]: the variant [v] adds the derived column to a row built
    from [n] values. *)
Definition derives (v : variant) (n : nat) : bool :=
  match v with
  | FundingRound => Nat.leb 6 n
  | BabyName => false
  end.

(** The first nine values of [lifelock_line]. *)
Definition nine_values_line : string :=
  "lifelock,LifeLock,,web,Tempe,AZ,1-May-07,6850000,USD".

(** [hash_input_ascii v line]: the value that the variant [v] hashes, when
    the line has one, is ASCII text. *)
Definition hash_input_ascii (v : variant) (line : string) : bool :=
  match v with
  | FundingRound =>
      match split_values line !! 5%nat with
      | Some funded => is_ascii funded
      | None => true
      end
  | BabyName => true
  end.

(** A text with the letter e acute, code point 233, and a line that has it
    as its sixth value. *)
Definition quebec : string := "Qu" ++ String (ascii_of_nat 233) "bec".

Definition quebec_line : string :=
  "acme,Acme,10,web,Montreal," ++ quebec ++ ",1-May-07,100,USD,a".

(** * Properties *)

(** ** The digest *)

Example sha256_abc :
  sha256_hexdigest "abc"
  = "ba7816bf8f01cfea414140de5dae2223b00361a396177a9cb410ff61f20015ad".
Proof. vm_compute. reflexivity. Qed.

Example sha256_empty :
  sha256_hexdigest ""
  = "e3b0c44298fc1c149afbf4c8996fb92427ae41e4649b934ca495991b7852b855".
Proof. vm_compute. reflexivity. Qed.

Example sha256_two_blocks :
  sha256_hexdigest "abcdbcdecdefdefgefghfghighijhijkijkljklmklmnlmnomnopnopq"
  = "248d6a61d20638b8e5c026930c3e6039a33ce45964ff2167f6ecedd419db06c1".
Proof. vm_compute. reflexivity. Qed.

(** ** Characters of the cleaned line and of its pieces *)

Lemma occurs_cons c c' s :
  occurs c (String c' s) = Ascii.eqb c c' || occurs c s.
Proof. reflexivity. Qed.

Lemma re_sub_quote_clean s : occurs quote_char (re_sub_quote s) = false.
Proof.
  induction s as [|c s IH]; [reflexivity|].
  cbn [re_sub_quote]. destruct (Ascii.eqb c quote_char) eqn:E; [exact IH|].
  rewrite occurs_cons, IH, Ascii.eqb_sym, E. reflexivity.
Qed.

Lemma re_sub_quote_occurs c s :
  occurs c (re_sub_quote s) = true -> occurs c s = true.
Proof.
  induction s as [|c' s IH]; [done|].
  cbn [re_sub_quote]. rewrite occurs_cons.
  destruct (Ascii.eqb c' quote_char).
  - intros H. rewrite (IH H). apply orb_true_r.
  - rewrite occurs_cons. intros [->|H]%orb_true_iff; [done|].
    rewrite (IH H). apply orb_true_r.
Qed.

(** [re_sub_crlf] steps by one or by two characters, so its properties are
    proved for a string and for its tail together. *)
Lemma re_sub_crlf_occurs_aux c s :
  (occurs c (re_sub_crlf s) = true -> occurs c s = true)
  /\ (forall a, occurs c (re_sub_crlf (String a s)) = true ->
                occurs c (String a s) = true).
Proof.
  induction s as [|b s [IH1 IH2]].
  - split; [done|]. intros a. exact id.
  - split; [apply IH2|]. intros a.
    change (re_sub_crlf (String a (String b s)))
      with (if Ascii.eqb a cr_char && Ascii.eqb b lf_char
            then re_sub_crlf s else String a (re_sub_crlf (String b s))).
    destruct (Ascii.eqb a cr_char && Ascii.eqb b lf_char).
    + intros H. rewrite !occurs_cons, (IH1 H), !orb_true_r. reflexivity.
    + rewrite (occurs_cons c a), (occurs_cons c a (String b s)).
      intros [->|H]%orb_true_iff; [done|].
      rewrite (IH2 b H). apply orb_true_r.
Qed.

Lemma re_sub_crlf_occurs c s :
  occurs c (re_sub_crlf s) = true -> occurs c s = true.
Proof. apply re_sub_crlf_occurs_aux. Qed.

Lemma re_sub_crlf_paired_aux s :
  (crlf_paired s = true ->
   occurs cr_char (re_sub_crlf s) = false
   /\ occurs lf_char (re_sub_crlf s) = false)
  /\ (forall a, crlf_paired (String a s) = true ->
      occurs cr_char (re_sub_crlf (String a s)) = false
      /\ occurs lf_char (re_sub_crlf (String a s)) = false).
Proof.
  induction s as [|b s [IH1 IH2]].
  - split; [done|]. intros a. cbn [crlf_paired re_sub_crlf].
    destruct (Ascii.eqb a cr_char) eqn:Ea; [done|].
    rewrite andb_true_r, negb_true_iff. intros Eb.
    rewrite !occurs_cons, (Ascii.eqb_sym _ a), Ea.
    rewrite (Ascii.eqb_sym _ a), Eb. done.
  - split; [apply IH2|]. intros a.
    change (re_sub_crlf (String a (String b s)))
      with (if Ascii.eqb a cr_char && Ascii.eqb b lf_char
            then re_sub_crlf s else String a (re_sub_crlf (String b s))).
    change (crlf_paired (String a (String b s)))
      with (if Ascii.eqb a cr_char
            then Ascii.eqb b lf_char && crlf_paired s
            else negb (Ascii.eqb a lf_char) && crlf_paired (String b s)).
    destruct (Ascii.eqb a cr_char) eqn:Ea.
    + intros [Eb Hs]%andb_true_iff. rewrite Eb. cbn [andb]. auto.
    + cbn [andb]. intros [El Hs]%andb_true_iff.
      apply negb_true_iff in El. destruct (IH2 b Hs) as [Hc Hl].
      rewrite (occurs_cons _ a), (occurs_cons _ a), Hc, Hl.
      rewrite (Ascii.eqb_sym _ a), Ea, (Ascii.eqb_sym _ a), El. done.
Qed.

Lemma re_sub_crlf_paired s :
  crlf_paired s = true ->
  occurs cr_char (re_sub_crlf s) = false
  /\ occurs lf_char (re_sub_crlf s) = false.
Proof. apply re_sub_crlf_paired_aux. Qed.

Lemma re_split_comma_cons s :
  exists piece pieces, re_split_comma s = piece :: pieces.
Proof.
  destruct s as [|c s]; cbn [re_split_comma]; [eauto|].
  destruct (Ascii.eqb c comma_char); [eauto|].
  destruct (re_split_comma s); eauto.
Qed.

Lemma re_split_comma_occurs c s piece :
  piece ∈ re_split_comma s -> occurs c piece = true -> occurs c s = true.
Proof.
  revert piece. induction s as [|a s IH]; intros piece.
  - cbn [re_split_comma]. intros ->%list_elem_of_singleton. done.
  - cbn [re_split_comma]. rewrite occurs_cons.
    destruct (Ascii.eqb a comma_char).
    + intros [->|Hin]%elem_of_cons; [done|].
      intros H. rewrite (IH _ Hin H). apply orb_true_r.
    + destruct (re_split_comma s) as [|p ps].
      * intros ->%list_elem_of_singleton. rewrite occurs_cons.
        intros [->|H]%orb_true_iff; done.
      * intros [->|Hin]%elem_of_cons.
        -- rewrite occurs_cons. intros [->|H]%orb_true_iff; [done|].
           rewrite (IH p); [apply orb_true_r|left|done].
        -- intros H. rewrite (IH piece); [apply orb_true_r|by right|done].
Qed.

Lemma split_values_cons line :
  exists v vs, split_values line = v :: vs.
Proof. apply re_split_comma_cons. Qed.

Lemma split_values_occurs c line v :
  v ∈ split_values line -> occurs c v = true -> occurs c line = true.
Proof.
  intros Hin H. apply re_sub_quote_occurs, re_sub_crlf_occurs.
  exact (re_split_comma_occurs _ _ _ Hin H).
Qed.

Lemma split_values_no_quote line v :
  v ∈ split_values line -> occurs quote_char v = false.
Proof.
  intros Hin. destruct (occurs quote_char v) eqn:E; [|done].
  pose proof (re_sub_crlf_occurs _ _ (re_split_comma_occurs _ _ _ Hin E)) as H.
  by rewrite re_sub_quote_clean in H.
Qed.

Lemma split_values_paired line v c :
  crlf_paired (re_sub_quote line) = true ->
  c = cr_char \/ c = lf_char ->
  v ∈ split_values line -> occurs c v = false.
Proof.
  intros Hp Hc Hin. destruct (occurs c v) eqn:E; [|done].
  pose proof (re_split_comma_occurs _ _ _ Hin E) as H.
  destruct (re_sub_crlf_paired _ Hp) as [H1 H2].
  destruct Hc as [-> | ->]; congruence.
Qed.

(** ** [dict(zip(names, values))] *)

Lemma dict_fold (pairs : list (string * string)) (m : gmap string string) :
  NoDup pairs.*1 ->
  fold_left (fun (d : gmap string string) p => <[p.1 := p.2]> d) pairs m
  = list_to_map pairs ∪ m.
Proof.
  revert m. induction pairs as [|[k x] pairs IH]; intros m Hnd.
  - cbn. by rewrite (left_id_L ∅ (∪)).
  - apply NoDup_cons in Hnd as [Hk Hnd]. cbn [fold_left fst snd].
    rewrite (IH _ Hnd). cbn [list_to_map foldr]. cbn [fst snd].
    rewrite <- insert_union_l. symmetry. apply insert_union_r.
    by apply not_elem_of_list_to_map_1.
Qed.

Lemma dict_list_to_map (pairs : list (string * string)) :
  NoDup pairs.*1 -> dict pairs = list_to_map pairs.
Proof.
  intros Hnd. unfold dict. rewrite (dict_fold _ _ Hnd).
  apply (right_id_L ∅ (∪)).
Qed.

Lemma elem_of_fst_zip (names values : list string) (k : string) :
  k ∈ (zip names values).*1 -> k ∈ names.
Proof.
  intros Hin. apply list_elem_of_fmap in Hin as [[k' x] [-> Hin]].
  by apply elem_of_zip_l in Hin.
Qed.

Lemma NoDup_fst_zip (names values : list string) :
  NoDup names -> NoDup (zip names values).*1.
Proof.
  revert values. induction names as [|n names IH]; intros values Hnd.
  - constructor.
  - destruct values as [|x values]; [constructor|].
    apply NoDup_cons in Hnd as [Hn Hnd]. cbn. apply NoDup_cons. split.
    + intros Hin. by apply Hn, (elem_of_fst_zip _ values).
    + by apply IH.
Qed.

(** The value stored under the column at position [i] is the value at
    position [i]; the column is missing when there is no such value. *)
Lemma dict_zip_lookup (names values : list string) (i : nat) (k : string) :
  NoDup names -> names !! i = Some k ->
  dict (zip names values) !! k = values !! i.
Proof.
  intros Hnd. rewrite (dict_list_to_map _ (NoDup_fst_zip _ values Hnd)).
  revert values i. induction names as [|n names IH]; intros values i Hi.
  - done.
  - apply NoDup_cons in Hnd as [Hn Hnd].
    destruct values as [|x values]; [by rewrite lookup_nil|].
    cbn [zip zip_with list_to_map foldr]. cbn [fst snd].
    destruct i as [|i]; cbn in Hi.
    + injection Hi as ->. by rewrite lookup_insert_eq.
    + rewrite lookup_insert_ne.
      * change ((x :: values) !! S i) with (values !! i). by apply IH.
      * intros ->. apply Hn. by eapply list_elem_of_lookup_2.
Qed.

(** A key that is no column name is not in the row. *)
Lemma dict_zip_lookup_None (names values : list string) (k : string) :
  NoDup names -> k ∉ names -> dict (zip names values) !! k = None.
Proof.
  intros Hnd Hk. rewrite (dict_list_to_map _ (NoDup_fst_zip _ values Hnd)).
  apply not_elem_of_list_to_map_1. intros Hin.
  by apply Hk, (elem_of_fst_zip _ values).
Qed.

(** Every value of the row is one of the values. *)
Lemma dict_zip_value (names values : list string) (k x : string) :
  NoDup names -> dict (zip names values) !! k = Some x -> x ∈ values.
Proof.
  intros Hnd. rewrite (dict_list_to_map _ (NoDup_fst_zip _ values Hnd)).
  intros Hin%elem_of_list_to_map_2. by apply elem_of_zip_r in Hin.
Qed.

(** ** Characters of a digest *)

Lemma occurs_elem_of c (l : list ascii) :
  occurs c (string_of_list_ascii l) = true -> c ∈ l.
Proof.
  induction l as [|a l IH]; [done|].
  cbn [string_of_list_ascii]. rewrite occurs_cons.
  intros [->%Ascii.eqb_eq|H]%orb_true_iff; [left|right; auto].
Qed.

Lemma hex_digit_elem_of n : hex_digit n ∈ hex_digits.
Proof.
  unfold hex_digit. apply list_elem_of_In.
  destruct (nth_in_or_default (Z.to_nat n) hex_digits "0"%char) as [H| ->].
  - exact H.
  - cbn. auto.
Qed.

Lemma sha256_hexdigest_occurs c s :
  occurs c (sha256_hexdigest s) = true -> c ∈ hex_digits.
Proof.
  intros H%occurs_elem_of. apply list_elem_of_In, in_flat_map in H.
  destruct H as [b [_ Hc]]. cbn in Hc.
  destruct Hc as [<-|[<-|[]]]; apply hex_digit_elem_of.
Qed.

Lemma sha256_hexdigest_clean c s :
  c ∉ hex_digits -> occurs c (sha256_hexdigest s) = false.
Proof.
  intros Hc. destruct (occurs c (sha256_hexdigest s)) eqn:E; [|done].
  by apply sha256_hexdigest_occurs in E.
Qed.

(** ** The two [parse_method]s *)

Lemma NoDup_funding_columns : NoDup data_ingestion.columns.
Proof. apply (bool_decide_unpack _). reflexivity. Qed.

Lemma NoDup_baby_columns : NoDup dataflow.columns.
Proof. apply (bool_decide_unpack _). reflexivity. Qed.

Lemma NoDup_columns_of v : NoDup (columns_of v).
Proof. destruct v; [apply NoDup_funding_columns|apply NoDup_baby_columns]. Qed.

(** The guard of the hash step makes the subscript safe; what is left to
    raise is the encoding of the text to hash.  The funding-round
    [parse_method] returns the row, with the digest added when the row has
    an ASCII [fundedDate]. *)
Lemma funding_parse_method_eq line :
  data_ingestion.parse_method line
  = match dict (zip data_ingestion.columns (split_values line))
            !! "fundedDate" with
    | Some funded =>
        if is_ascii funded
        then Ok (<["hash_code" := sha256_hexdigest funded]>
                   (dict (zip data_ingestion.columns (split_values line))))
        else Raise (UnicodeEncodeError funded)
    | None => Ok (dict (zip data_ingestion.columns (split_values line)))
    end.
Proof.
  unfold data_ingestion.parse_method, contains, getitem,
    hashlib_sha256_hexdigest, ascii_encode. cbn zeta.
  destruct (dict _ !! "fundedDate") as [funded|] eqn:E.
  - rewrite bool_decide_eq_true_2 by eauto.
    unfold mbind, result_bind. cbn beta iota.
    destruct (is_ascii funded); reflexivity.
  - rewrite bool_decide_eq_false_2 by (intros [? ?]; done). reflexivity.
Qed.

Lemma Ok_inj {A : Type} (a b : A) : Ok a = Ok b -> a = b.
Proof. congruence. Qed.

(** A returned funding-round row is the assembled one, with the digest of
    its [fundedDate] when it has one. *)
Lemma funding_parse_method_Ok line rec :
  data_ingestion.parse_method line = Ok rec ->
  rec = match dict (zip data_ingestion.columns (split_values line))
              !! "fundedDate" with
        | Some funded =>
            <["hash_code" := sha256_hexdigest funded]>
              (dict (zip data_ingestion.columns (split_values line)))
        | None => dict (zip data_ingestion.columns (split_values line))
        end.
Proof.
  rewrite funding_parse_method_eq.
  destruct (dict _ !! "fundedDate") as [funded|].
  - destruct (is_ascii funded); [by intros <-%Ok_inj|done].
  - by intros <-%Ok_inj.
Qed.

Lemma baby_parse_method_eq line :
  dataflow.parse_method line
  = Ok (dict (zip dataflow.columns (split_values line))).
Proof. reflexivity. Qed.

Lemma funding_row_fundedDate line :
  dict (zip data_ingestion.columns (split_values line)) !! "fundedDate"
  = split_values line !! 5%nat.
Proof. by apply dict_zip_lookup; [apply NoDup_funding_columns|]. Qed.

Lemma hash_code_not_funding_column : "hash_code" ∉ data_ingestion.columns.
Proof. apply (bool_decide_unpack _). reflexivity. Qed.

(** What the funding-round row holds under [fundedDate] and [hash_code]. *)
Lemma funding_record_lookup line rec :
  data_ingestion.parse_method line = Ok rec ->
  rec !! "fundedDate" = split_values line !! 5%nat
  /\ rec !! "hash_code" = sha256_hexdigest <$> (rec !! "fundedDate").
Proof.
  intros ->%funding_parse_method_Ok.
  pose proof (dict_zip_lookup_None _ (split_values line) _
                NoDup_funding_columns hash_code_not_funding_column) as Hh.
  rewrite <- funding_row_fundedDate.
  destruct (dict _ !! "fundedDate") as [funded|] eqn:E.
  - rewrite lookup_insert_eq, lookup_insert_ne, E by done. done.
  - rewrite E, Hh. done.
Qed.

(** A column of the funding-round row holds the value at its position. *)
Lemma funding_record_column line rec i c :
  data_ingestion.parse_method line = Ok rec ->
  data_ingestion.columns !! i = Some c ->
  rec !! c = split_values line !! i.
Proof.
  intros ->%funding_parse_method_Ok Hc.
  assert (c <> "hash_code") as Hne.
  { intros ->. apply hash_code_not_funding_column.
    by eapply list_elem_of_lookup_2. }
  destruct (dict _ !! "fundedDate"); [rewrite lookup_insert_ne by done|];
    by apply dict_zip_lookup; [apply NoDup_funding_columns|].
Qed.

(** The keys of the funding-round row are columns or [hash_code]. *)
Lemma funding_record_keys line rec k :
  data_ingestion.parse_method line = Ok rec ->
  is_Some (rec !! k) -> k ∈ data_ingestion.columns \/ k = "hash_code".
Proof.
  intros ->%funding_parse_method_Ok.
  destruct (decide (k = "hash_code")) as [->|Hne]; [by right|].
  destruct (decide (k ∈ data_ingestion.columns)) as [Hin|Hnin]; [by left|].
  intros [x Hx]. exfalso. revert Hx.
  destruct (dict _ !! "fundedDate"); [rewrite lookup_insert_ne by done|];
    by rewrite dict_zip_lookup_None; [|apply NoDup_funding_columns|].
Qed.

(** Every value of a row is a value of the line or a digest. *)
Lemma record_value_origin v line rec k x :
  parse_method_of v line = Ok rec -> rec !! k = Some x ->
  x ∈ split_values line \/ exists funded, x = sha256_hexdigest funded.
Proof.
  destruct v; cbn [parse_method_of].
  - intros ->%funding_parse_method_Ok.
    destruct (dict _ !! "fundedDate") as [funded|].
    + destruct (decide (k = "hash_code")) as [->|Hne].
      * rewrite lookup_insert_eq. intros [= <-]. eauto.
      * rewrite lookup_insert_ne by done. intros Hx. left.
        by eapply dict_zip_value; [apply NoDup_funding_columns|].
    + intros Hx. left.
      by eapply dict_zip_value; [apply NoDup_funding_columns|].
  - rewrite baby_parse_method_eq. intros <-%Ok_inj Hx. left.
    by eapply dict_zip_value; [apply NoDup_baby_columns|].
Qed.

Lemma noise_not_hex c :
  c = quote_char \/ c = cr_char \/ c = lf_char -> c ∉ hex_digits.
Proof.
  intros [->|[->| ->]]; apply (bool_decide_unpack _); reflexivity.
Qed.

(** ** The claims *)

(** Every funding-round row has the key [permlink]. *)
Lemma funding_rows_have_permlink line rec :
  data_ingestion.parse_method line = Ok rec ->
  exists x, rec !! "permlink" = Some x.
Proof.
  intros Hrec. destruct (split_values_cons line) as (x & xs & Hv).
  exists x. rewrite (funding_record_column line rec 0 "permlink" Hrec);
    [by rewrite Hv|done].
Qed.

(** C1 (code defect).  The claim says that every non-derived key of a
    funding-round row is a column of the sink schema string, whose second
    column is [permalink].  On the line of the docstring the row has the key
    [permlink], which the sink schema does not declare, and has no key
    [permalink]. *)
Theorem funding_first_key_not_in_sink_schema :
  data_ingestion.parse_method lifelock_line = Ok lifelock_record
  /\ lifelock_record !! "permlink" = Some "lifelock"
  /\ ("permlink" ∉ schema_columns data_ingestion.schema)
  /\ ("permalink" ∈ schema_columns data_ingestion.schema)
  /\ lifelock_record !! "permalink" = None.
Proof.
  split; [reflexivity|]. split; [reflexivity|]. split; [|split; [|reflexivity]].
  - apply (bool_decide_unpack _). vm_compute. reflexivity.
  - apply (bool_decide_unpack _). vm_compute. reflexivity.
Qed.

(** C2.  On the line of the docstring the funding-round [parse_method]
    returns the positional pairing of the nine names with the first nine
    values ([permlink] with lifelock, [numEmps] with LifeLock, [category]
    with the empty value, [city] with web, [state] with Tempe, [fundedDate]
    with AZ, [raisedAmt] with 1-May-07, [raisedCurrency] with 6850000,
    [round] with USD), and [hash_code] is the digest of the value that
    [fundedDate] resolves to, which is AZ. *)
Theorem funding_parse_lifelock :
  data_ingestion.parse_method lifelock_line = Ok lifelock_record
  /\ lifelock_record
     = dict (zip data_ingestion.columns (split_values lifelock_line)
             ++ [("hash_code", sha256_hexdigest "AZ")])
  /\ lifelock_record !! "fundedDate" = Some "AZ"
  /\ lifelock_record !! "hash_code"
     = sha256_hexdigest <$> (lifelock_record !! "fundedDate").
Proof. repeat split; reflexivity. Qed.





(** CR and LF outside a CR LF pair, and a CR LF pair that only the deletion
    of another one brings together, stay in the values: the claim C5 fails
    as stated.  The line [stray_cr_line] contains a CR LF sequence, and the
    value it leaves under [gender] is F followed by CR and LF. *)
Lemma values_keep_cr_lf :
  has_crlf stray_cr_line = true
  /\ dataflow.parse_method stray_cr_line = Ok stray_record
  /\ stray_record !! "gender" = Some stray_value
  /\ occurs cr_char stray_value = true
  /\ occurs lf_char stray_value = true
  /\ has_crlf stray_value = true.
Proof. repeat split; reflexivity. Qed.

(** C5 (amended).  For every line and both variants no value of the
    returned row contains a double quote, and when CR and LF occur in the
    line without its quotes only as adjacent CR LF pairs, no value contains
    CR or LF either. *)
Theorem parse_method_values_clean (v : variant) (line : string)
    (rec : gmap string string) (k x : string) :
  parse_method_of v line = Ok rec ->
  rec !! k = Some x ->
  occurs quote_char x = false
  /\ (crlf_paired (re_sub_quote line) = true ->
      occurs cr_char x = false /\ occurs lf_char x = false).
Proof.
  intros Hrec Hx.
  destruct (record_value_origin v line rec k x Hrec Hx) as [Hin|[funded ->]].
  - split; [by eapply split_values_no_quote|].
    intros Hp. split; eapply split_values_paired; eauto.
  - split; [|intros _; split]; apply sha256_hexdigest_clean, noise_not_hex;
      auto.
Qed.

Lemma parse_method_values_clean_witness :
  occurs quote_char "KS" = false
  /\ occurs cr_char "KS" = false /\ occurs lf_char "KS" = false.
Proof.
  destruct (parse_method_values_clean BabyName quoted_line quoted_record
              "state" "KS") as [Hq Hp].
  - reflexivity.
  - reflexivity.
  - split; [exact Hq|]. apply Hp. reflexivity.
Defined.

(** Stripping is not aware of CSV quoting: a comma between quotes still
    separates two values. *)
Example quoted_comma_not_protected :
  split_values quoted_comma_line = ["a"; "b"; "c"].
Proof. reflexivity. Qed.

(** The claim C6 fails as stated: the funding-round [parse_method] raises
    on [quebec_line], whose sixth value is not ASCII text, at the hash
    step. *)
Lemma non_ascii_fundedDate_raises :
  data_ingestion.parse_method quebec_line = Raise (UnicodeEncodeError quebec)
  /\ split_values quebec_line !! 5%nat = Some quebec
  /\ is_ascii quebec = false.
Proof. repeat split; reflexivity. Qed.

(** C6 (amended).  For every line whose value to hash, if the line has one,
    is ASCII text (every line, for the baby-name variant), [parse_method]
    returns a row and raises nothing, whatever the number of values. *)
Theorem parse_method_total (v : variant) (line : string) :
  hash_input_ascii v line = true ->
  (exists rec, parse_method_of v line = Ok rec)
  /\ (forall e, parse_method_of v line <> Raise e).
Proof.
  destruct v; cbn [parse_method_of hash_input_ascii].
  - rewrite funding_parse_method_eq, funding_row_fundedDate.
    destruct (split_values line !! 5%nat) as [funded|].
    + intros ->. split; [eauto|done].
    + intros _. split; [eauto|done].
  - intros _. rewrite baby_parse_method_eq. split; [eauto|done].
Qed.

Lemma parse_method_total_witness :
  (exists rec, parse_method_of FundingRound arizona_line = Ok rec)
  /\ (forall e, parse_method_of FundingRound arizona_line <> Raise e).
Proof.
  apply (parse_method_total FundingRound arizona_line). reflexivity.
Defined.

(** C7.  Two funding-round lines whose rows agree on [fundedDate] agree on
    [hash_code], which is the SHA-256 hex digest of the [fundedDate] value
    and of nothing else. *)
Theorem funding_hash_code_deterministic (line1 line2 : string)
    (rec1 rec2 : gmap string string) :
  data_ingestion.parse_method line1 = Ok rec1 ->
  data_ingestion.parse_method line2 = Ok rec2 ->
  rec1 !! "fundedDate" = rec2 !! "fundedDate" ->
  rec1 !! "hash_code" = rec2 !! "hash_code"
  /\ rec1 !! "hash_code" = sha256_hexdigest <$> (rec1 !! "fundedDate").
Proof.
  intros [_ H1]%funding_record_lookup [_ H2]%funding_record_lookup Heq.
  split; [|done]. by rewrite H1, H2, Heq.
Qed.

Lemma funding_hash_code_deterministic_witness :
  lifelock_record !! "hash_code" = arizona_record !! "hash_code"
  /\ lifelock_record !! "hash_code"
     = sha256_hexdigest <$> (lifelock_record !! "fundedDate").
Proof.
  apply (funding_hash_code_deterministic lifelock_line arizona_line).
  - reflexivity.
  - reflexivity.
  - reflexivity.
Defined.


(** ** The pipeline *)

(** After a run the output table holds the rows of that run and no other,
    whatever the sink held before. *)
Lemma run_of_rows (v : variant) (output : string) (source : list string)
    (before after : gmap string table) :
  run_of v output source before after ->
  exists t records,
    after !! output = Some t
    /\ beam_map (parse_method_of v) (read_from_text source 1) = Ok records
    /\ table_rows t ≡ₚ records.
Proof.
  intros Hrun.
  assert (pipeline (parse_method_of v)
            (match v with
             | FundingRound => data_ingestion.schema
             | BabyName => dataflow.schema
             end) output source before after)
    as (records & arrival & Hmap & Hperm & ->) by (by destruct v).
  eexists _, records. split; [apply lookup_insert_eq|]. by split.
Qed.

(** C9.  With the truncate disposition of [run], two runs in succession on
    the same source, from any state of the sink, leave in the output table
    the rows of the second run only: a permutation of the rows parsed from
    the source without its header line, each once, which is also what the
    first run had left there. *)
Theorem run_twice_rows (v : variant) (output : string) (source : list string)
    (w0 w1 w2 : gmap string table) :
  run_of v output source w0 w1 ->
  run_of v output source w1 w2 ->
  exists t1 t2 records,
    w1 !! output = Some t1
    /\ w2 !! output = Some t2
    /\ beam_map (parse_method_of v) (read_from_text source 1) = Ok records
    /\ table_rows t2 ≡ₚ records
    /\ table_rows t2 ≡ₚ table_rows t1.
Proof.
  intros (t1 & records1 & Ht1 & Hmap1 & Hrows1)%run_of_rows
         (t2 & records2 & Ht2 & Hmap2 & Hrows2)%run_of_rows.
  exists t1, t2, records2. repeat (split; [done|]).
  rewrite Hrows1, Hrows2. rewrite Hmap1 in Hmap2.
  by apply Ok_inj in Hmap2 as ->.
Qed.

Lemma run_twice_rows_witness :
  exists t1 t2 records,
    sink_after stale_sink !! "lake.usa_names" = Some t1
    /\ sink_after (sink_after stale_sink) !! "lake.usa_names" = Some t2
    /\ beam_map dataflow.parse_method (read_from_text names_source 1)
       = Ok records
    /\ table_rows t2 ≡ₚ records
    /\ table_rows t2 ≡ₚ table_rows t1.
Proof.
  apply (run_twice_rows BabyName "lake.usa_names" names_source stale_sink).
  - exists [dorothy_record], [dorothy_record].
    split; [reflexivity|]. split; reflexivity.
  - exists [dorothy_record], [dorothy_record].
    split; [reflexivity|]. split; reflexivity.
Defined.

(** The sink of the example: one stale row before, the row of the run
    after each of the two runs. *)
Example sink_after_two_runs :
  table_rows <$> (stale_sink !! "lake.usa_names") = Some [stale_record]
  /\ table_rows <$> (sink_after (sink_after stale_sink) !! "lake.usa_names")
     = Some [dorothy_record].
Proof. split; reflexivity. Qed.

(** C10.  The empty line splits into one empty value, so both variants
    return the row that maps the first column to the empty string, and the
    funding-round row has no [hash_code]. *)
Theorem parse_method_empty_line :
  split_values "" = [""]
  /\ data_ingestion.parse_method "" = Ok {["permlink" := ""]}
  /\ ({["permlink" := ""]} : gmap string string) !! "hash_code" = None
  /\ dataflow.parse_method "" = Ok {["state" := ""]}
  /\ ({["permlink" := ""]} : gmap string string) <> ∅.
Proof.
  split; [reflexivity|]. split; [reflexivity|]. split; [reflexivity|].
  split; [reflexivity|]. apply insert_non_empty.
Qed.

(** * Further properties of the cleaning, the splitting and the rows *)

(** ** Splitting and joining *)

Lemma re_split_comma_join s : join_comma (re_split_comma s) = s.
Proof.
  induction s as [|c s IH]; [reflexivity|].
  cbn [re_split_comma]. destruct (Ascii.eqb c comma_char) eqn:E.
  - apply Ascii.eqb_eq in E as ->.
    destruct (re_split_comma_cons s) as (p & ps & Hs).
    rewrite Hs in *. cbn [join_comma]. cbn [join_comma] in IH.
    by rewrite IH.
  - destruct (re_split_comma_cons s) as (p & ps & Hs). rewrite Hs in *.
    rewrite <- IH. by destruct ps.
Qed.

Lemma re_split_comma_length s :
  length (re_split_comma s) = S (count_char comma_char s).
Proof.
  induction s as [|c s IH]; [reflexivity|].
  cbn [re_split_comma count_char]. rewrite (Ascii.eqb_sym comma_char c).
  destruct (Ascii.eqb c comma_char).
  - cbn [length]. by rewrite IH.
  - destruct (re_split_comma s); [discriminate IH|]. exact IH.
Qed.

Lemma re_split_comma_no_comma s piece :
  piece ∈ re_split_comma s -> occurs comma_char piece = false.
Proof.
  revert piece. induction s as [|c s IH]; intros piece.
  - cbn [re_split_comma]. by intros ->%list_elem_of_singleton.
  - cbn [re_split_comma]. destruct (Ascii.eqb c comma_char) eqn:E.
    + intros [->|Hin]%elem_of_cons; [done|by apply IH].
    + destruct (re_split_comma s) as [|p ps].
      * intros ->%list_elem_of_singleton.
        by rewrite occurs_cons, Ascii.eqb_sym, E.
      * intros [->|Hin]%elem_of_cons.
        -- rewrite occurs_cons, Ascii.eqb_sym, E. apply IH. by left.
        -- apply IH. by right.
Qed.

Lemma re_split_comma_unfold c s :
  re_split_comma (String c s)
  = if Ascii.eqb c comma_char then EmptyString :: re_split_comma s
    else match re_split_comma s with
         | piece :: pieces => String c piece :: pieces
         | [] => [String c EmptyString]
         end.
Proof. reflexivity. Qed.

Lemma re_split_comma_app a b :
  re_split_comma (a ++ String comma_char b)
  = (re_split_comma a ++ re_split_comma b)%list.
Proof.
  induction a as [|c a IH]; [reflexivity|].
  change (String c a ++ String comma_char b)
    with (String c (a ++ String comma_char b)).
  rewrite !re_split_comma_unfold, IH.
  destruct (Ascii.eqb c comma_char); [reflexivity|].
  destruct (re_split_comma_cons a) as (p & ps & ->). reflexivity.
Qed.

(** ** Cleaning *)

Lemma re_sub_quote_app a b :
  re_sub_quote (a ++ b) = re_sub_quote a ++ re_sub_quote b.
Proof.
  induction a as [|c a IH]; [reflexivity|].
  change (String c a ++ b) with (String c (a ++ b)).
  cbn [re_sub_quote]. rewrite IH.
  by destruct (Ascii.eqb c quote_char).
Qed.

Lemma re_sub_quote_id s :
  occurs quote_char s = false -> re_sub_quote s = s.
Proof.
  induction s as [|c s IH]; [done|].
  rewrite occurs_cons. intros [E H]%orb_false_iff.
  cbn [re_sub_quote]. rewrite Ascii.eqb_sym, E. by rewrite IH.
Qed.

Lemma re_sub_quote_count c s :
  c <> quote_char -> count_char c (re_sub_quote s) = count_char c s.
Proof.
  intros Hc. induction s as [|c' s IH]; [reflexivity|].
  cbn [re_sub_quote count_char].
  destruct (Ascii.eqb c' quote_char) eqn:E.
  - apply Ascii.eqb_eq in E as ->.
    by rewrite (proj2 (Ascii.eqb_neq c quote_char) Hc).
  - cbn [count_char]. by rewrite IH.
Qed.

Lemma re_sub_crlf_cons c s :
  Ascii.eqb c cr_char = false ->
  re_sub_crlf (String c s) = String c (re_sub_crlf s).
Proof. intros E. cbn [re_sub_crlf]. rewrite E. by destruct s. Qed.

Lemma re_sub_crlf_cons2 a b s :
  re_sub_crlf (String a (String b s))
  = if Ascii.eqb a cr_char && Ascii.eqb b lf_char
    then re_sub_crlf s else String a (re_sub_crlf (String b s)).
Proof. reflexivity. Qed.

Lemma re_sub_crlf_id_aux s :
  (has_crlf s = false -> re_sub_crlf s = s)
  /\ (forall a, has_crlf (String a s) = false ->
                re_sub_crlf (String a s) = String a s).
Proof.
  induction s as [|b s [IH1 IH2]].
  - split; [done|]. by intros a _.
  - split; [apply IH2|]. intros a.
    change (has_crlf (String a (String b s)))
      with ((Ascii.eqb a cr_char && Ascii.eqb b lf_char)
            || has_crlf (String b s)).
    intros [E H]%orb_false_iff.
    rewrite re_sub_crlf_cons2, E. by rewrite (IH2 b H).
Qed.

Lemma re_sub_crlf_id s : has_crlf s = false -> re_sub_crlf s = s.
Proof. apply re_sub_crlf_id_aux. Qed.

Lemma re_sub_crlf_count_aux c s :
  c <> cr_char -> c <> lf_char ->
  count_char c (re_sub_crlf s) = count_char c s
  /\ (forall a, count_char c (re_sub_crlf (String a s))
                = count_char c (String a s)).
Proof.
  intros Hcr Hlf. induction s as [|b s [IH1 IH2]].
  - split; [done|]. by intros a.
  - split; [apply IH2|]. intros a. rewrite re_sub_crlf_cons2.
    destruct (Ascii.eqb a cr_char && Ascii.eqb b lf_char) eqn:E.
    + apply andb_true_iff in E as [->%Ascii.eqb_eq ->%Ascii.eqb_eq].
      cbn [count_char].
      rewrite (proj2 (Ascii.eqb_neq c cr_char) Hcr).
      rewrite (proj2 (Ascii.eqb_neq c lf_char) Hlf). exact IH1.
    + change (count_char c (String a (re_sub_crlf (String b s))))
        with ((if Ascii.eqb c a then 1 else 0)
              + count_char c (re_sub_crlf (String b s))).
      by rewrite (IH2 b).
Qed.

Lemma re_sub_crlf_count c s :
  c <> cr_char -> c <> lf_char ->
  count_char c (re_sub_crlf s) = count_char c s.
Proof. intros Hcr Hlf. by apply re_sub_crlf_count_aux. Qed.

Lemma re_sub_crlf_app_crlf_aux s :
  re_sub_crlf (s ++ crlf) = re_sub_crlf s
  /\ (forall a, re_sub_crlf (String a s ++ crlf) = re_sub_crlf (String a s)).
Proof.
  induction s as [|b s [IH1 IH2]].
  - split; [reflexivity|]. intros a.
    change (String a "" ++ crlf) with (String a (String cr_char (String lf_char ""))).
    rewrite re_sub_crlf_cons2.
    replace (Ascii.eqb cr_char lf_char) with false by reflexivity.
    by rewrite andb_false_r.
  - split; [apply IH2|]. intros a.
    change (String a (String b s) ++ crlf)
      with (String a (String b (s ++ crlf))).
    rewrite !re_sub_crlf_cons2.
    destruct (Ascii.eqb a cr_char && Ascii.eqb b lf_char); [exact IH1|].
    f_equal. exact (IH2 b).
Qed.

Lemma re_sub_crlf_app_comma_aux s b :
  re_sub_crlf (s ++ String comma_char b)
  = re_sub_crlf s ++ String comma_char (re_sub_crlf b)
  /\ (forall a, re_sub_crlf (String a s ++ String comma_char b)
                = re_sub_crlf (String a s) ++ String comma_char (re_sub_crlf b)).
Proof.
  induction s as [|x s [IH1 IH2]].
  - split; [by apply re_sub_crlf_cons|]. intros a.
    change (String a "" ++ String comma_char b)
      with (String a (String comma_char b)).
    rewrite re_sub_crlf_cons2.
    replace (Ascii.eqb comma_char lf_char) with false by reflexivity.
    rewrite andb_false_r. by rewrite re_sub_crlf_cons.
  - split; [apply IH2|]. intros a.
    change (String a (String x s) ++ String comma_char b)
      with (String a (String x (s ++ String comma_char b))).
    rewrite !re_sub_crlf_cons2.
    destruct (Ascii.eqb a cr_char && Ascii.eqb x lf_char); [exact IH1|].
    change (String a (re_sub_crlf (String x s))
            ++ String comma_char (re_sub_crlf b))
      with (String a (re_sub_crlf (String x s)
                      ++ String comma_char (re_sub_crlf b))).
    f_equal. exact (IH2 x).
Qed.

(** ** Rows as functions of the values *)

Lemma parse_method_of_values v line1 line2 :
  split_values line1 = split_values line2 ->
  parse_method_of v line1 = parse_method_of v line2.
Proof.
  intros H. destruct v; cbn [parse_method_of];
    unfold data_ingestion.parse_method, dataflow.parse_method;
    by rewrite H.
Qed.

Lemma zip_columns_take (names values : list string) :
  zip names (take (length names) values) = zip names values.
Proof. by apply zip_with_take_r. Qed.

Lemma fst_zip_take (names values : list string) :
  (zip names values).*1 = take (length values) names.
Proof.
  revert values. induction names as [|n names IH]; intros [|x values];
    cbn; try done. by rewrite IH.
Qed.

Lemma dict_zip_dom (names values : list string) :
  NoDup names ->
  dom (dict (zip names values))
  =@{gset string} list_to_set (take (length values) names).
Proof.
  intros Hnd. rewrite (dict_list_to_map _ (NoDup_fst_zip _ values Hnd)).
  by rewrite dom_list_to_map_L, fst_zip_take.
Qed.

Lemma dict_zip_size (names values : list string) :
  NoDup names ->
  size (dict (zip names values)) = length values `min` length names.
Proof.
  intros Hnd. rewrite <- size_dom, (dict_zip_dom _ _ Hnd).
  rewrite size_list_to_set, length_take; [done|].
  exact (sublist_NoDup _ _ Hnd (sublist_take _ _)).
Qed.

Lemma omap_positional (f : string -> option string)
    (names values : list string) :
  (forall i c, names !! i = Some c -> f c = values !! i) ->
  length values <= length names ->
  omap f names = values.
Proof.
  revert values. induction names as [|n names IH]; intros values H Hlen.
  - destruct values; [done|]. cbn in Hlen. lia.
  - pose proof (H 0%nat n eq_refl) as H0.
    destruct values as [|x values].
    + change (omap f (n :: names))
        with (match f n with Some y => y :: omap f names
                           | None => omap f names end).
      rewrite H0. apply (IH []); [|cbn; lia].
      intros i c Hc. by rewrite (H (S i) c Hc).
    + change (omap f (n :: names))
        with (match f n with Some y => y :: omap f names
                           | None => omap f names end).
      rewrite H0. cbn. f_equal. apply IH; [|cbn in Hlen; lia].
      intros i c Hc. exact (H (S i) c Hc).
Qed.

(** ** The digest as text *)

Lemma length_string_of_list_ascii (l : list ascii) :
  String.length (string_of_list_ascii l) = length l.
Proof. induction l as [|a l IH]; [done|]. cbn. by rewrite IH. Qed.

Lemma flat_map_length_const {A B : Type} (f : A -> list B) (k : nat)
    (l : list A) :
  (forall x, length (f x) = k) -> length (flat_map f l) = k * length l.
Proof.
  intros Hf. induction l as [|x l IH]; [cbn; lia|].
  cbn [flat_map]. rewrite length_app, Hf, IH. cbn [length]. lia.
Qed.

Lemma sha256_hexdigest_length s : String.length (sha256_hexdigest s) = 64.
Proof.
  unfold sha256_hexdigest. rewrite length_string_of_list_ascii.
  rewrite (flat_map_length_const _ 2) by reflexivity.
  unfold SHA256.digest.
  rewrite (flat_map_length_const _ 4) by reflexivity.
  reflexivity.
Qed.

(** ** Properties of the values *)

Lemma comma_not_noise :
  comma_char <> quote_char /\ comma_char <> cr_char /\ comma_char <> lf_char.
Proof. repeat split; apply Ascii.eqb_neq; reflexivity. Qed.

Lemma split_values_length line :
  length (split_values line) = S (count_char comma_char line).
Proof.
  destruct comma_not_noise as (Hq & Hc & Hl). unfold split_values.
  by rewrite re_split_comma_length, re_sub_crlf_count, re_sub_quote_count.
Qed.

(** X1.  A line has one value more than it has commas, the commas between
    double quotes included; so a funding-round row that is returned has a
    [hash_code] exactly when the raw line has at least five commas. *)
Theorem split_values_count (line : string) :
  length (split_values line) = S (count_char comma_char line)
  /\ forall rec,
       data_ingestion.parse_method line = Ok rec ->
       (is_Some (rec !! "hash_code") <-> 5 <= count_char comma_char line).
Proof.
  split; [apply split_values_length|]. intros rec Hrec.
  destruct (funding_record_lookup line rec Hrec) as [Hf Hh].
  rewrite Hh, Hf, fmap_is_Some, lookup_lt_is_Some, split_values_length. lia.
Qed.

Lemma split_values_count_witness :
  length (split_values arizona_line) = S (count_char comma_char arizona_line)
  /\ (is_Some (arizona_record !! "hash_code")
      <-> 5 <= count_char comma_char arizona_line).
Proof.
  destruct (split_values_count arizona_line) as [Hcount Hhash].
  split; [exact Hcount|]. apply Hhash. reflexivity.
Defined.

(** X2.  No value of a returned row contains a comma, in both variants. *)
Theorem parse_method_values_no_comma (v : variant) (line : string)
    (rec : gmap string string) (k x : string) :
  parse_method_of v line = Ok rec ->
  rec !! k = Some x ->
  occurs comma_char x = false.
Proof.
  intros Hrec Hx.
  destruct (record_value_origin v line rec k x Hrec Hx) as [Hin|[funded ->]].
  - by eapply re_split_comma_no_comma.
  - apply sha256_hexdigest_clean, (bool_decide_unpack _). reflexivity.
Qed.

Lemma parse_method_values_no_comma_witness :
  occurs comma_char "Dorothy" = false.
Proof.
  apply (parse_method_values_no_comma BabyName dorothy_line dorothy_record
           "name" "Dorothy"); reflexivity.
Defined.

(** X3.  A double quote put anywhere into a line does not change the row:
    the line with the quote and the line without it parse alike. *)
Theorem parse_method_ignores_quote (v : variant) (a b : string) :
  parse_method_of v (a ++ String quote_char b) = parse_method_of v (a ++ b).
Proof.
  apply parse_method_of_values. unfold split_values.
  rewrite !re_sub_quote_app. cbn [re_sub_quote].
  by rewrite Ascii.eqb_refl.
Qed.

(** X4.  A CR LF after the last character of a line does not change the
    row. *)
Theorem parse_method_ignores_final_crlf (v : variant) (line : string) :
  parse_method_of v (line ++ crlf) = parse_method_of v line.
Proof.
  apply parse_method_of_values. unfold split_values.
  rewrite re_sub_quote_app.
  change (re_sub_quote crlf) with crlf.
  by rewrite (proj1 (re_sub_crlf_app_crlf_aux _)).
Qed.

(** X5.  The values of two pieces put together with a comma are the values
    of the first piece followed by the values of the second. *)
Theorem split_values_app_comma (a b : string) :
  split_values (a ++ String comma_char b)
  = (split_values a ++ split_values b)%list.
Proof.
  unfold split_values. rewrite re_sub_quote_app.
  change (re_sub_quote (String comma_char b))
    with (String comma_char (re_sub_quote b)).
  rewrite (proj1 (re_sub_crlf_app_comma_aux _ _)).
  apply re_split_comma_app.
Qed.

(** X6.  On a line with no double quote and no CR LF sequence the cleaning
    removes nothing: the values are the pieces between the commas of the
    line itself, and joined with commas they give the line back. *)
Theorem clean_line_values (line : string) :
  occurs quote_char line = false ->
  has_crlf line = false ->
  split_values line = re_split_comma line
  /\ join_comma (split_values line) = line.
Proof.
  intros Hq Hc. unfold split_values.
  rewrite (re_sub_quote_id _ Hq), (re_sub_crlf_id _ Hc).
  split; [done|apply re_split_comma_join].
Qed.

Lemma clean_line_values_witness :
  split_values dorothy_line = re_split_comma dorothy_line
  /\ join_comma (split_values dorothy_line) = dorothy_line.
Proof. apply clean_line_values; reflexivity. Defined.

(** ** Properties of the rows *)

Lemma parse_method_of_column v line rec i c :
  parse_method_of v line = Ok rec ->
  columns_of v !! i = Some c ->
  rec !! c = split_values line !! i.
Proof.
  destruct v; cbn [parse_method_of columns_of].
  - apply funding_record_column.
  - rewrite baby_parse_method_eq. intros <-%Ok_inj Hc.
    by apply dict_zip_lookup; [apply NoDup_baby_columns|].
Qed.

(** X7.  When a line has no more values than the variant has columns, the
    row keeps all of the cleaned line: the values read back from the row in
    column order and joined with commas are the cleaned line. *)
Theorem narrow_line_round_trip (v : variant) (line : string)
    (rec : gmap string string) :
  parse_method_of v line = Ok rec ->
  length (split_values line) <= length (columns_of v) ->
  join_comma (omap (fun c => rec !! c) (columns_of v))
  = re_sub_crlf (re_sub_quote line).
Proof.
  intros Hrec Hlen.
  rewrite (omap_positional _ _ (split_values line)); [|by
    intros i c Hc; apply (parse_method_of_column v line)|done].
  apply re_split_comma_join.
Qed.

Lemma narrow_line_round_trip_witness :
  join_comma (omap (fun c => dorothy_record !! c) dataflow.columns)
  = re_sub_crlf (re_sub_quote dorothy_line).
Proof.
  apply (narrow_line_round_trip BabyName dorothy_line dorothy_record).
  - reflexivity.
  - vm_compute. lia.
Defined.

(** X8.  The [hash_code] of a funding-round row is a text of 64 characters,
    each one of the sixteen lower-case hexadecimal digits. *)
Theorem hash_code_format (line : string) (rec : gmap string string)
    (h : string) :
  data_ingestion.parse_method line = Ok rec ->
  rec !! "hash_code" = Some h ->
  String.length h = 64
  /\ forall c, occurs c h = true -> c ∈ hex_digits.
Proof.
  intros [_ Hh]%funding_record_lookup Hrec. rewrite Hh in Hrec.
  apply fmap_Some in Hrec as (funded & _ & ->).
  split; [apply sha256_hexdigest_length|].
  intros c. apply sha256_hexdigest_occurs.
Qed.

Lemma hash_code_format_witness :
  String.length digest_AZ = 64
  /\ forall c, occurs c digest_AZ = true -> c ∈ hex_digits.
Proof.
  apply (hash_code_format lifelock_line lifelock_record); reflexivity.
Defined.

(** X9.  A row depends on the values of the line up to the number of
    columns only: two lines that agree on that many leading values parse
    alike, whatever follows. *)
Theorem extra_values_ignored (v : variant) (line1 line2 : string) :
  take (length (columns_of v)) (split_values line1)
  = take (length (columns_of v)) (split_values line2) ->
  parse_method_of v line1 = parse_method_of v line2.
Proof.
  intros Htake.
  assert (zip (columns_of v) (split_values line1)
          = zip (columns_of v) (split_values line2)) as Hzip.
  { by rewrite <- (zip_columns_take _ (split_values line1)), Htake,
               zip_columns_take. }
  destruct v; cbn [parse_method_of columns_of] in *.
  - by rewrite !funding_parse_method_eq, Hzip.
  - by rewrite !baby_parse_method_eq, Hzip.
Qed.

Lemma extra_values_ignored_witness :
  data_ingestion.parse_method lifelock_line
  = data_ingestion.parse_method nine_values_line.
Proof.
  apply (extra_values_ignored FundingRound lifelock_line nine_values_line).
  vm_compute. reflexivity.
Defined.

(** X10.  The keys of a returned row are the leading columns, as many as
    the line has values, and [hash_code] when the variant derives it; the
    row has that many entries and is never empty. *)
Theorem parse_method_keys (v : variant) (line : string)
    (rec : gmap string string) :
  parse_method_of v line = Ok rec ->
  dom rec
  =@{gset string}
  (if derives v (length (split_values line))
   then {["hash_code"]} else ∅)
  ∪ list_to_set (take (length (split_values line)) (columns_of v))
  /\ size rec
     = (if derives v (length (split_values line)) then 1 else 0)
       + length (split_values line) `min` length (columns_of v)
  /\ 0 < size rec.
Proof.
  assert (0 < length (split_values line) `min` length (columns_of v))
    as Hpos.
  { destruct (split_values_cons line) as (x & xs & ->).
    destruct v; cbn; lia. }
  destruct v; cbn [parse_method_of columns_of derives] in *.
  - intros ->%funding_parse_method_Ok.
    pose proof (funding_row_fundedDate line) as Hf.
    pose proof (dict_zip_lookup_None _ (split_values line) _
                  NoDup_funding_columns hash_code_not_funding_column) as Hh.
    pose proof (dict_zip_dom _ (split_values line) NoDup_funding_columns)
      as Hdom.
    pose proof (dict_zip_size _ (split_values line) NoDup_funding_columns)
      as Hsize.
    destruct (dict _ !! "fundedDate") as [funded|] eqn:E.
    + assert (6 <= length (split_values line)) as Hlen.
      { apply lookup_lt_is_Some. rewrite <- Hf. eauto. }
      rewrite (leb_correct _ _ Hlen).
      rewrite dom_insert_L, Hdom, (map_size_insert_None _ _ _ Hh), Hsize.
      split; [done|]. split; lia.
    + assert (~ 6 <= length (split_values line)) as Hlen.
      { intros Hlen%lookup_lt_is_Some. rewrite <- Hf in Hlen.
        by destruct Hlen. }
      rewrite leb_correct_conv by lia.
      rewrite Hdom, Hsize, (left_id_L ∅ (∪)). split; [done|]. split; lia.
  - rewrite baby_parse_method_eq. intros <-%Ok_inj.
    rewrite (dict_zip_dom _ _ NoDup_baby_columns),
            (dict_zip_size _ _ NoDup_baby_columns), (left_id_L ∅ (∪)).
    split; [done|]. split; lia.
Qed.

Lemma parse_method_keys_witness :
  dom arizona_record
  =@{gset string}
  (if derives FundingRound (length (split_values arizona_line))
   then {["hash_code"]} else ∅)
  ∪ list_to_set (take (length (split_values arizona_line))
                      (columns_of FundingRound))
  /\ size arizona_record
     = (if derives FundingRound (length (split_values arizona_line))
        then 1 else 0)
       + length (split_values arizona_line)
         `min` length (columns_of FundingRound)
  /\ 0 < size arizona_record.
Proof.
  apply (parse_method_keys FundingRound arizona_line arizona_record).
  reflexivity.
Defined.

(** ** Rows against the sink schema of [run] *)

Lemma baby_schema_columns : schema_columns dataflow.schema = dataflow.columns.
Proof. vm_compute. reflexivity. Qed.

Lemma funding_columns_in_schema :
  Forall (fun k => k = "permlink" \/ k ∈ schema_columns data_ingestion.schema)
         data_ingestion.columns.
Proof. apply (bool_decide_unpack _). vm_compute. reflexivity. Qed.

(** X12.  Every key of a baby-name row is a column that the sink schema of
    [run] in the same file declares. *)
Theorem baby_keys_in_sink_schema (line : string) (rec : gmap string string)
    (k : string) :
  dataflow.parse_method line = Ok rec ->
  is_Some (rec !! k) ->
  k ∈ schema_columns dataflow.schema.
Proof.
  rewrite baby_parse_method_eq, baby_schema_columns. intros <-%Ok_inj Hk.
  destruct (decide (k ∈ dataflow.columns)) as [|Hnin]; [done|].
  rewrite dict_zip_lookup_None in Hk;
    [by destruct Hk|apply NoDup_baby_columns|done].
Qed.

Lemma baby_keys_in_sink_schema_witness :
  "created_date" ∈ schema_columns dataflow.schema.
Proof.
  apply (baby_keys_in_sink_schema dorothy_line dorothy_record).
  - reflexivity.
  - exists "11/28/2016". reflexivity.
Defined.

(** X13.  Every key of a funding-round row other than [permlink] is a
    column that the sink schema of [run] in the same file declares, the
    derived [hash_code] included. *)
Theorem funding_keys_in_sink_schema (line : string)
    (rec : gmap string string) (k : string) :
  data_ingestion.parse_method line = Ok rec ->
  is_Some (rec !! k) ->
  k = "permlink" \/ k ∈ schema_columns data_ingestion.schema.
Proof.
  intros Hrec Hk.
  destruct (funding_record_keys line rec k Hrec Hk) as [Hin| ->].
  - exact (proj1 (Forall_forall _ _) funding_columns_in_schema k Hin).
  - right. apply (bool_decide_unpack _). vm_compute. reflexivity.
Qed.

Lemma funding_keys_in_sink_schema_witness :
  "raisedAmt" = "permlink"
  \/ "raisedAmt" ∈ schema_columns data_ingestion.schema.
Proof.
  apply (funding_keys_in_sink_schema lifelock_line lifelock_record).
  - reflexivity.
  - exists "1-May-07". reflexivity.
Defined.

(** ** Rows determine narrow clean lines *)

(** X14.  Two lines without double quotes and CR LF sequences, neither with
    more values than the variant has columns, that parse to the same row
    are the same line. *)
Theorem parse_method_injective (v : variant) (line1 line2 : string)
    (rec : gmap string string) :
  occurs quote_char line1 = false -> has_crlf line1 = false ->
  occurs quote_char line2 = false -> has_crlf line2 = false ->
  length (split_values line1) <= length (columns_of v) ->
  length (split_values line2) <= length (columns_of v) ->
  parse_method_of v line1 = Ok rec ->
  parse_method_of v line2 = Ok rec ->
  line1 = line2.
Proof.
  intros Hq1 Hc1 Hq2 Hc2 Hn1 Hn2 Hrec1 Hrec2.
  assert (split_values line1 = split_values line2) as Hvalues.
  { rewrite <- (omap_positional (fun c => rec !! c) (columns_of v)
                  (split_values line1)),
            <- (omap_positional (fun c => rec !! c) (columns_of v)
                  (split_values line2)); [done| |done| |done].
    - intros i c Hc. by apply (parse_method_of_column v line2).
    - intros i c Hc. by apply (parse_method_of_column v line1). }
  unfold split_values in Hvalues.
  rewrite (re_sub_quote_id _ Hq1), (re_sub_crlf_id _ Hc1) in Hvalues.
  rewrite (re_sub_quote_id _ Hq2), (re_sub_crlf_id _ Hc2) in Hvalues.
  by rewrite <- (re_split_comma_join line1), Hvalues, re_split_comma_join.
Qed.

Lemma parse_method_injective_witness : dorothy_line = dorothy_line.
Proof.
  apply (parse_method_injective BabyName dorothy_line dorothy_line
           dorothy_record); try reflexivity; vm_compute; lia.
Defined.
